(** * DevOps demo API: request-context middleware, metrics and item store

    A shallow embedding of [main.py]: the in-memory item store, the
    request-id resolver, the [RequestContextMiddleware.dispatch] pipeline
    (timer, Prometheus counter and histogram, response header, JSON log
    line) and the five route handlers, followed by the properties the
    specification states about them.

    Conventions.
    - Python [int] is [Z]; Python [str] is [string], read as a sequence of
      code points below 256 (what HTTP header values decode to).
    - Python [float] and the built-ins the code applies to it ([-], [*],
      [round], [repr]) form the interface [PyFloat]; the service is
      parametric in it.
    - Process-wide mutable objects ([store], [REQUEST_COUNT],
      [REQUEST_LATENCY], the logger, the monotonic clock and the entropy
      source) are the fields of one [World], threaded through a state and
      exception monad [M].
    - A request is what the server hands over: its method, the path the
      router matches ([scope["path"]]), what [request.url.path] evaluates
      to (a path, or the [ValueError] of a Host header no URL can be built
      from), its header lines and its body. Requests are served one after
      the other. *)

From Stdlib Require Import ZArith String Ascii List Lia DecimalString DecimalPos DecimalZ.
From stdpp Require Import gmap strings list sorting.

Open Scope Z_scope.

(** ** Python strings and integers *)

(** [str(n)] for an [int]. *)
Definition str_int (z : Z) : string :=
  DecimalString.NilZero.string_of_int (Z.to_int z).

Definition chars (s : string) : list ascii := list_ascii_of_string s.

Definition ord (c : ascii) : Z := Z.of_N (N_of_ascii c).

(** One lower-case hexadecimal digit, as ["%x"] prints it. *)
Definition hex_digit (d : Z) : ascii :=
  if d <? 10 then ascii_of_N (Z.to_N (48 + d)) else ascii_of_N (Z.to_N (87 + d)).

(** The [k]-th hexadecimal digit of [n], counted from the least
    significant one: [(n >> 4k) & 0xf]. *)
Definition nibble (n : Z) (k : nat) : Z :=
  Z.land (Z.shiftr n (4 * Z.of_nat k)) 15.

(** [width] hexadecimal digits of [n], most significant first. This is
    ["%0<width>x" % n] for [0 <= n < 16 ^ width]. *)
Fixpoint hex_fixed (width : nat) (n : Z) : string :=
  match width with
  | O => EmptyString
  | S w => String (hex_digit (nibble n w)) (hex_fixed w n)
  end.

(** [str.lower] on the ASCII letters (header names are ASCII tokens). *)
Definition lower_char (c : ascii) : ascii :=
  let n := ord c in
  if (65 <=? n) && (n <=? 90) then ascii_of_N (Z.to_N (n + 32)) else c.

Fixpoint lower (s : string) : string :=
  match s with
  | EmptyString => EmptyString
  | String c s' => String (lower_char c) (lower s')
  end.

(** [sep.join(parts)] *)
Fixpoint join (sep : string) (parts : list string) : string :=
  match parts with
  | [] => EmptyString
  | [p] => p
  | p :: ps => p +:+ sep +:+ join sep ps
  end.

Definition dquote : ascii := ascii_of_N 34.
Definition newline : ascii := ascii_of_N 10.

(** A string is a single line when it holds no line feed. *)
Definition single_line (s : string) : Prop := newline ∉ chars s.

(** ** JSON text of a string: [json.encoder.py_encode_basestring_ascii]

    The quote and the backslash are escaped, the control characters with a
    short form get it, every other character outside [' ' .. '~'] becomes
    [\u00xx]. *)
Definition escape_char (c : ascii) : string :=
  let n := ord c in
  if n =? 92 then "\\"
  else if n =? 34 then String "\" (String dquote EmptyString)
  else if n =? 8 then "\b"
  else if n =? 12 then "\f"
  else if n =? 10 then "\n"
  else if n =? 13 then "\r"
  else if n =? 9 then "\t"
  else if (32 <=? n) && (n <=? 126) then String c EmptyString
  else "\u" +:+ hex_fixed 4 n.

Fixpoint escape (s : string) : string :=
  match s with
  | EmptyString => EmptyString
  | String c s' => escape_char c +:+ escape s'
  end.

Definition encode_basestring_ascii (s : string) : string :=
  String dquote (escape s +:+ String dquote EmptyString).

(** ** Python floats

    [time.perf_counter()] returns a [float]; the middleware subtracts two
    readings, multiplies by [1000], rounds with [round(x, 3)] and lets
    [json.dumps] print the result. These built-ins are the interface. *)
Class PyFloat := {
  float : Type;
  float_sub : float → float → float;        (* x - y *)
  float_mul : float → float → float;        (* x * y *)
  float_of_int : Z → float;                 (* int operand of a float operation *)
  float_round : float → Z → float;          (* round(x, ndigits) *)
  float_repr : float → string;              (* the text json.dumps prints *)
}.

(** ** The item model *)

(** [class ItemIn(BaseModel)]: one required field, [name: str]. *)
Module ItemIn.
Record t := { name : string }.
End ItemIn.

(** [class ItemOut(ItemIn)]: the inherited field [name] comes first. *)
Module ItemOut.
Record t := { name : string; id : Z }.
End ItemOut.

(** ** [InMemoryStore] *)
Module InMemoryStore.

Record t := { _items : list ItemOut.t; _next_id : Z }.

(** [__init__] *)
Definition init : t := {| _items := []; _next_id := 1 |}.

(** [list_items]: returns the list object itself; the store is not
    changed. *)
Definition list_items (self : t) : list ItemOut.t := _items self.

(** [add_item]: the created item and the store after the call. *)
Definition add_item (self : t) (name : string) : ItemOut.t * t :=
  let item := {| ItemOut.name := name; ItemOut.id := _next_id self |} in
  (item, {| _items := _items self ++ [item]; _next_id := _next_id self + 1 |}).

(** The store after adding [names] one after the other. *)
Definition add_all (self : t) (names : list string) : t :=
  foldl (λ s n, (add_item s n).2) self names.

(** The invariant of section 3 of the specification: ids strictly
    increase along the list, start at 1 and stay below the counter, which
    is at least 1. *)
Definition inv (self : t) : Prop :=
  StronglySorted Z.lt (ItemOut.id <$> _items self)
  ∧ Forall (λ i, 1 ≤ ItemOut.id i < _next_id self) (_items self)
  ∧ 1 ≤ _next_id self.

End InMemoryStore.

(** ** JSON values of request bodies and response contents

    An object keeps its members in document order. A number is an integer
    here: bodies with other numbers are outside the model. *)
#[warnings="-register-all"] Inductive json :=
  | JNull
  | JBool (b : bool)
  | JInt (z : Z)
  | JStr (s : string)
  | JArr (elements : list json)
  | JObj (members : list (string * json)).

(** [d[key] = v] on a dict kept as its list of items: a key that is there
    keeps its place and takes the new value, a new key goes to the end. *)
Fixpoint dict_set (key : string) (v : json) (d : list (string * json))
    : list (string * json) :=
  match d with
  | [] => [(key, v)]
  | (k, x) :: rest =>
      if String.eqb k key then (k, v) :: rest else (k, x) :: dict_set key v rest
  end.

(** [dict(pairs)]: of two members with one key the later value wins. *)
Definition dict_of_pairs (pairs : list (string * json)) : list (string * json) :=
  foldl (λ d kv, dict_set kv.1 kv.2 d) [] pairs.

(** [json.loads] of a document: the value with every object turned into
    the dict of its members, so that each key occurs once. *)
Fixpoint loads (document : json) : json :=
  match document with
  | JArr elements => JArr (map loads elements)
  | JObj members => JObj (dict_of_pairs (map (λ kv, (kv.1, loads kv.2)) members))
  | _ => document
  end.

(** [d.get(key)] on the items of a dict. *)
Fixpoint dict_get (key : string) (d : list (string * json)) : option json :=
  match d with
  | [] => None
  | (k, v) :: rest => if String.eqb k key then Some v else dict_get key rest
  end.

(** [item.model_dump()] *)
Definition model_dump (item : ItemOut.t) : json :=
  JObj [("name", JStr (ItemOut.name item)); ("id", JInt (ItemOut.id item))].

(** The body of a request, sent as JSON: no bytes at all, bytes that
    [json.loads] cannot decode as text ([UnicodeDecodeError]), text that is
    not a JSON document ([JSONDecodeError] with its position and message),
    or a JSON document. Bodies sent under another content type are outside
    the model. *)
Inductive RequestBody :=
  | NoBody
  | Undecodable
  | Malformed (pos : Z) (msg : string)
  | Json (document : json).

(** One entry of a validation error list, in pydantic's shape. *)
Definition error_detail (type : string) (loc : list string) (msg : string)
    (input : json) : json :=
  JObj [("type", JStr type); ("loc", JArr (JStr <$> loc));
        ("msg", JStr msg); ("input", input)].

(** Validation of a decoded body against [ItemIn]: the value is a dict
    whose member [name] is a string. No constraint is declared on the
    string. An error echoes the value it is about. *)
Definition ItemIn_validate (value : json) : list json + ItemIn.t :=
  match value with
  | JObj d =>
      match dict_get "name" d with
      | Some (JStr s) => inr {| ItemIn.name := s |}
      | Some v =>
          inl [error_detail "string_type" ["body"; "name"]
                 "Input should be a valid string" v]
      | None =>
          inl [error_detail "missing" ["body"; "name"]
                 "Field required" (JObj d)]
      end
  | v =>
      inl [error_detail "model_attributes_type" ["body"]
             "Input should be a valid dictionary or object to extract fields from" v]
  end.

(** What FastAPI makes of the body of [POST /items] before it calls the
    route function: an HTTP error 400 when the bytes do not decode, a
    request validation error (answered 422) when there is no body ([None],
    which the document [null] gives too), when the text is not JSON or when
    the value fails [ItemIn], else the payload. *)
Inductive body_result :=
  | BadRequest (detail : string)
  | Invalid (errors : list json)
  | Payload (payload : ItemIn.t).

Definition solve_body (body : RequestBody) : body_result :=
  match body with
  | Undecodable => BadRequest "There was an error parsing the body"
  | NoBody => Invalid [error_detail "missing" ["body"] "Field required" JNull]
  | Malformed pos msg =>
      Invalid [JObj [("type", JStr "json_invalid");
                     ("loc", JArr [JStr "body"; JInt pos]);
                     ("msg", JStr "JSON decode error");
                     ("input", JObj []);
                     ("ctx", JObj [("error", JStr msg)])]]
  | Json document =>
      match loads document with
      | JNull => Invalid [error_detail "missing" ["body"] "Field required" JNull]
      | value =>
          match ItemIn_validate value with
          | inl errors => Invalid errors
          | inr payload => Payload payload
          end
      end
  end.

(** ** Header lists (Starlette's [Headers] and [MutableHeaders]) *)

(** An ASGI server hands over header names in lower case. *)
Definition scope_headers (sent : list (string * string)) : list (string * string) :=
  (λ kv, (lower kv.1, kv.2)) <$> sent.

(** [Headers.get(key)]: the value of the first entry named [key.lower()]. *)
Fixpoint headers_get (key : string) (raw : list (string * string)) : option string :=
  match raw with
  | [] => None
  | (k, v) :: rest => if String.eqb k (lower key) then Some v else headers_get key rest
  end.

(** [MutableHeaders.__setitem__]: the first entry named [key.lower()] is
    overwritten and later ones are deleted; without one, the entry is
    appended. *)
Fixpoint headers_set (key value : string) (raw : list (string * string))
    : list (string * string) :=
  match raw with
  | [] => [(lower key, value)]
  | (k, v) :: rest =>
      if String.eqb k (lower key)
      then (lower key, value) :: filter (λ kv, kv.1 ≠ lower key) rest
      else (k, v) :: headers_set key value rest
  end.

(** ** [uuid.uuid4().hex]

    [r] is the integer read from [os.urandom(16)]; [UUID.__init__] sets
    the variant and version bits; [hex] is ["%032x" % int]. *)
Definition uuid4_int (r : Z) : Z :=
  let int := r mod 2 ^ 128 in
  let int := Z.land int (Z.lnot (Z.shiftl 0xc000 48)) in
  let int := Z.lor int (Z.shiftl 0x8000 48) in
  let int := Z.land int (Z.lnot (Z.shiftl 0xf000 64)) in
  Z.lor int (Z.shiftl 4 76).

Definition uuid4_hex (r : Z) : string := hex_fixed 32 (uuid4_int r).

(** ** Exceptions and results *)
Inductive exn :=
  | AttributeError (attr : string)
  | RuntimeError (msg : string)
  | ValueError (msg : string).

Inductive result (A : Type) :=
  | Ok (a : A)
  | Raise (e : exn).
Arguments Ok {A} a.
Arguments Raise {A} e.

(** ** Requests

    [request.url] is built on first use from the Host header (or the
    server address) and [scope["path"]], and split with [urlsplit]: its
    path is [scope["path"]] for an ordinary request, it differs from it
    when the Host header holds a slash or the path an encoded question mark
    or hash, and [urlsplit] raises [ValueError] for a Host header such as
    an unclosed bracket. The model takes the outcome as a field of the
    request. *)
Module Request.
Record t := {
  method : string;
  path : string;                          (* scope["path"], which the router matches *)
  url_path : result string;               (* request.url.path, or what it raises *)
  headers : list (string * string);       (* as sent by the client *)
  body : RequestBody;
  state_request_id : option string;       (* request.state.request_id *)
}.
End Request.

(** A label set of the metrics registry: [(method, path, status)]. *)
Abbreviation Labels := (string * string * string)%type.

(** ** The service *)
Section Service.

Context `{PyFloat}.

(** *** Responses *)

(** What a response carries: a JSON document, or the text exposition of
    the metrics registry, kept as the snapshot of the two metrics of this
    module that it prints (the series of the library's default collectors
    are not modelled). *)
Inductive Content :=
  | JsonContent (document : json)
  | MetricsText (counts : gmap Labels Z) (latencies : gmap Labels (list float)).

Record Response := {
  status_code : Z;
  headers : list (string * string);       (* raw headers, names in lower case *)
  content : Content;
}.

(** What the libraries around the application fix and the source does not
    show: the response the framework gives a request that none of the five
    decorated routes matches (not found, method not allowed, its
    documentation pages), built without touching the process state, and
    the constant [CONTENT_TYPE_LATEST] of prometheus_client. *)
Class Framework := {
  framework_response : Request.t → Response;
  CONTENT_TYPE_LATEST : string;
}.

Context `{Framework}.

(** *** The process state

    [REQUEST_COUNT] maps a label set to the value of its counter child.
    [REQUEST_LATENCY] maps a label set to the observations its histogram
    child has received, oldest first: the buckets, [_sum] and [_count] of
    the child are functions of that sequence. [log_output] holds the lines
    the logger has written. [clock] and [entropy] give the successive
    results of [time.perf_counter()] and [os.urandom(16)]. *)
Record World := {
  store : InMemoryStore.t;
  REQUEST_COUNT : gmap Labels Z;
  REQUEST_LATENCY : gmap Labels (list float);
  log_output : list string;
  clock : nat → float;
  clock_reads : nat;
  entropy : nat → Z;
  entropy_reads : nat;
}.

Definition set_store (s : InMemoryStore.t) (w : World) : World :=
  {| store := s; REQUEST_COUNT := REQUEST_COUNT w;
     REQUEST_LATENCY := REQUEST_LATENCY w; log_output := log_output w;
     clock := clock w; clock_reads := clock_reads w;
     entropy := entropy w; entropy_reads := entropy_reads w |}.

Definition set_REQUEST_COUNT (m : gmap Labels Z) (w : World) : World :=
  {| store := store w; REQUEST_COUNT := m;
     REQUEST_LATENCY := REQUEST_LATENCY w; log_output := log_output w;
     clock := clock w; clock_reads := clock_reads w;
     entropy := entropy w; entropy_reads := entropy_reads w |}.

Definition set_REQUEST_LATENCY (m : gmap Labels (list float)) (w : World) : World :=
  {| store := store w; REQUEST_COUNT := REQUEST_COUNT w;
     REQUEST_LATENCY := m; log_output := log_output w;
     clock := clock w; clock_reads := clock_reads w;
     entropy := entropy w; entropy_reads := entropy_reads w |}.

Definition set_log_output (l : list string) (w : World) : World :=
  {| store := store w; REQUEST_COUNT := REQUEST_COUNT w;
     REQUEST_LATENCY := REQUEST_LATENCY w; log_output := l;
     clock := clock w; clock_reads := clock_reads w;
     entropy := entropy w; entropy_reads := entropy_reads w |}.

Definition set_clock_reads (n : nat) (w : World) : World :=
  {| store := store w; REQUEST_COUNT := REQUEST_COUNT w;
     REQUEST_LATENCY := REQUEST_LATENCY w; log_output := log_output w;
     clock := clock w; clock_reads := n;
     entropy := entropy w; entropy_reads := entropy_reads w |}.

Definition set_entropy_reads (n : nat) (w : World) : World :=
  {| store := store w; REQUEST_COUNT := REQUEST_COUNT w;
     REQUEST_LATENCY := REQUEST_LATENCY w; log_output := log_output w;
     clock := clock w; clock_reads := clock_reads w;
     entropy := entropy w; entropy_reads := n |}.

(** *** The monad: state passing, with Python exceptions

    A computation returns its result, or the exception it raised, together
    with the state at that point. *)
Definition M (A : Type) : Type := World → result A * World.

Definition ret {A} (a : A) : M A := λ w, (Ok a, w).

Definition raise {A} (e : exn) : M A := λ w, (Raise e, w).

Definition bind {A B} (m : M A) (k : A → M B) : M B :=
  λ w, match m w with
       | (Ok a, w') => k a w'
       | (Raise e, w') => (Raise e, w')
       end.

Notation "x <- m ;; k" := (bind m (λ x, k))
  (at level 100, m at next level, right associativity).
Notation "m ;;; k" := (bind m (λ _, k))
  (at level 100, right associativity).

(** [time.perf_counter()] *)
Definition perf_counter : M float :=
  λ w, (Ok (clock w (clock_reads w)), set_clock_reads (S (clock_reads w)) w).

(** [uuid.uuid4().hex] *)
Definition uuid4_hex_new : M string :=
  λ w, (Ok (uuid4_hex (entropy w (entropy_reads w))),
        set_entropy_reads (S (entropy_reads w)) w).

(** [logger.info(line)] *)
Definition logger_info (line : string) : M unit :=
  λ w, (Ok tt, set_log_output (log_output w ++ [line]) w).

(** *** The metrics registry *)

(** The value of the counter child of a label set; a child starts at 0. *)
Definition counter_value (m : gmap Labels Z) (labels : Labels) : Z :=
  default 0 (m !! labels).

(** The observations of the histogram child of a label set. *)
Definition observations (m : gmap Labels (list float)) (labels : Labels) : list float :=
  default [] (m !! labels).

(** [REQUEST_COUNT.labels( **labels ).inc()] *)
Definition REQUEST_COUNT_inc (labels : Labels) : M unit :=
  λ w, (Ok tt,
        set_REQUEST_COUNT
          (<[labels := counter_value (REQUEST_COUNT w) labels + 1]> (REQUEST_COUNT w)) w).

(** [REQUEST_LATENCY.labels( **labels ).observe(amount)] *)
Definition REQUEST_LATENCY_observe (labels : Labels) (amount : float) : M unit :=
  λ w, (Ok tt,
        set_REQUEST_LATENCY
          (<[labels := observations (REQUEST_LATENCY w) labels ++ [amount]]>
             (REQUEST_LATENCY w)) w).

(** The part of the state a handler never touches. *)
Definition same_observers (w w' : World) : Prop :=
  REQUEST_COUNT w' = REQUEST_COUNT w ∧ REQUEST_LATENCY w' = REQUEST_LATENCY w
  ∧ log_output w' = log_output w ∧ clock w' = clock w
  ∧ clock_reads w' = clock_reads w.

(** *** [json.dumps] of the log dict

    The dict the middleware logs maps strings to [str], [int] and [float]
    values. [json.dumps] with its default separators writes the members in
    insertion order. *)
Inductive pyvalue :=
  | PyStr (s : string)
  | PyInt (z : Z)
  | PyFlt (x : float).

Definition dumps_value (v : pyvalue) : string :=
  match v with
  | PyStr s => encode_basestring_ascii s
  | PyInt z => str_int z
  | PyFlt x => float_repr x
  end.

Definition dumps_member (kv : string * pyvalue) : string :=
  encode_basestring_ascii kv.1 +:+ ": " +:+ dumps_value kv.2.

Definition json_dumps (d : list (string * pyvalue)) : string :=
  "{" +:+ join ", " (dumps_member <$> d) +:+ "}".

(** *** [_request_id] *)
Definition _request_id (request : Request.t) : M string :=
  match headers_get "x-request-id" (scope_headers (Request.headers request)) with
  | Some v => if String.eqb v "" then uuid4_hex_new else ret v
  | None => uuid4_hex_new
  end.

(** [request.state.request_id = request_id] *)
Definition set_state_request_id (request_id : string) (request : Request.t) : Request.t :=
  {| Request.method := Request.method request;
     Request.path := Request.path request;
     Request.url_path := Request.url_path request;
     Request.headers := Request.headers request;
     Request.body := Request.body request;
     Request.state_request_id := Some request_id |}.

(** [response.headers[key] = value] *)
Definition set_header (key value : string) (response : Response) : Response :=
  {| status_code := status_code response;
     headers := headers_set key value (headers response);
     content := content response |}.

(** [request.url.path] *)
Definition url_path (request : Request.t) : M string :=
  match Request.url_path request with
  | Ok path => ret path
  | Raise e => raise e
  end.

(** The dict [labels] of [dispatch], as the label set it selects. *)
Definition labels_of (method path : string) (code : Z) : Labels :=
  (method, path, str_int code).

(** The dict [log] of [dispatch]. *)
Definition log_dict (request_id method path : string) (code : Z)
    (latency : float) : list (string * pyvalue) :=
  [("request_id", PyStr request_id);
   ("method", PyStr method);
   ("path", PyStr path);
   ("status", PyInt code);
   ("latency_ms", PyFlt (float_round (float_mul latency (float_of_int 1000)) 3))].

(** *** [RequestContextMiddleware.dispatch]

    [call_next] is the rest of the application. When it raises, [bind]
    passes the exception on and nothing below that line runs. The same
    holds when [request.url.path] raises while the labels are built: the
    handler has run, and nothing is counted, stamped or logged. The second
    use of [request.url.path], in [log], returns the value of the first. *)
Definition dispatch (request : Request.t) (call_next : Request.t → M Response)
    : M Response :=
  request_id <- _request_id request ;;
  let request := set_state_request_id request_id request in
  start <- perf_counter ;;
  response <- call_next request ;;
  now <- perf_counter ;;
  let latency := float_sub now start in
  path <- url_path request ;;
  let labels := labels_of (Request.method request) path (status_code response) in
  REQUEST_COUNT_inc labels ;;;
  REQUEST_LATENCY_observe labels latency ;;;
  let response := set_header "x-request-id" request_id response in
  let log := log_dict request_id (Request.method request) path
               (status_code response) latency in
  logger_info (json_dumps log) ;;;
  ret response.

(** *** Route handlers *)

(** [request.state.request_id] in a handler. *)
Definition get_state_request_id (request : Request.t) : M string :=
  match Request.state_request_id request with
  | Some request_id => ret request_id
  | None => raise (AttributeError "request_id")
  end.

(** [JSONResponse(content, status_code=...)]. The [content-length] header,
    which the framework computes from the rendered body, is not modelled. *)
Definition JSONResponse (document : json) (code : Z) : Response :=
  {| status_code := code;
     headers := [("content-type", "application/json")];
     content := JsonContent document |}.

Definition HTTP_200_OK : Z := 200.
Definition HTTP_201_CREATED : Z := 201.
Definition HTTP_400_BAD_REQUEST : Z := 400.
Definition HTTP_422_UNPROCESSABLE_ENTITY : Z := 422.

(** [store.list_items()] and [store.add_item(name)] on the global store. *)
Definition store_list_items : M (list ItemOut.t) :=
  λ w, (Ok (InMemoryStore.list_items (store w)), w).

Definition store_add_item (name : string) : M ItemOut.t :=
  λ w, let '(item, s) := InMemoryStore.add_item (store w) name in
       (Ok item, set_store s w).

(** [generate_latest()], kept as the snapshot it prints. *)
Definition generate_latest : M Content :=
  λ w, (Ok (MetricsText (REQUEST_COUNT w) (REQUEST_LATENCY w)), w).

(** [GET /health] *)
Definition health (request : Request.t) : M Response :=
  request_id <- get_state_request_id request ;;
  ret (JSONResponse (JObj [("status", JStr "ok"); ("request_id", JStr request_id)])
         HTTP_200_OK).

(** [GET /items] *)
Definition list_items (request : Request.t) : M Response :=
  stored <- store_list_items ;;
  let items := model_dump <$> stored in
  request_id <- get_state_request_id request ;;
  let payload := JObj [("items", JArr items);
                       ("count", JInt (Z.of_nat (length items)));
                       ("request_id", JStr request_id)] in
  ret (JSONResponse payload HTTP_200_OK).

(** [POST /items], called with the validated payload. *)
Definition create_item (payload : ItemIn.t) (request : Request.t) : M Response :=
  item <- store_add_item (ItemIn.name payload) ;;
  request_id <- get_state_request_id request ;;
  ret (JSONResponse (JObj [("item", model_dump item); ("request_id", JStr request_id)])
         HTTP_201_CREATED).

(** [GET /metrics] *)
Definition metrics : M Response :=
  text <- generate_latest ;;
  ret {| status_code := HTTP_200_OK;
         headers := [("content-type", CONTENT_TYPE_LATEST)];
         content := text |}.

(** [GET /] *)
Definition root (request : Request.t) : M Response :=
  request_id <- get_state_request_id request ;;
  ret (JSONResponse (JObj [("message", JStr "DevOps demo API");
                           ("request_id", JStr request_id)])
         HTTP_200_OK).

(** *** Routing

    FastAPI reads and validates the body of [POST /items] before it calls
    [create_item]; a body it rejects gets the error response and the
    handler is not called. *)
Definition post_items (request : Request.t) : M Response :=
  match solve_body (Request.body request) with
  | Payload payload => create_item payload request
  | Invalid errors =>
      ret (JSONResponse (JObj [("detail", JArr errors)]) HTTP_422_UNPROCESSABLE_ENTITY)
  | BadRequest detail =>
      ret (JSONResponse (JObj [("detail", JStr detail)]) HTTP_400_BAD_REQUEST)
  end.

(** The router matches the method and [scope["path"]]. *)
Definition route (request : Request.t) : M Response :=
  let method := Request.method request in
  let path := Request.path request in
  if String.eqb method "GET" && String.eqb path "/health" then health request
  else if String.eqb method "GET" && String.eqb path "/items" then list_items request
  else if String.eqb method "POST" && String.eqb path "/items" then post_items request
  else if String.eqb method "GET" && String.eqb path "/metrics" then metrics
  else if String.eqb method "GET" && String.eqb path "/" then root request
  else ret (framework_response request).

(** The application: the middleware around the router. *)
Definition app (request : Request.t) : M Response := dispatch request route.

(** The state after serving a sequence of requests, one after the other. *)
Definition serve_all (requests : list Request.t) (w : World) : World :=
  foldl (λ w request, (app request w).2) w requests.

(** The name a request adds to the store: that of a [POST /items] whose
    body validates. *)
Definition created_name (request : Request.t) : option string :=
  if String.eqb (Request.method request) "POST" && String.eqb (Request.path request) "/items"
  then match solve_body (Request.body request) with
       | Payload payload => Some (ItemIn.name payload)
       | _ => None
       end
  else None.


End Service.

(** ** An exact decimal instance of [PyFloat]

    A number is a count of millionths, so the arithmetic is exact. It is
    the instance the lemmas below are run on. *)
Definition round_half_even (x q : Z) : Z :=
  let d := x / q in
  let r := x mod q in
  if 2 * r <? q then d * q
  else if q <? 2 * r then (d + 1) * q
  else if Z.even d then d * q else (d + 1) * q.

Definition micro_round (x ndigits : Z) : Z :=
  if 6 <=? ndigits then x else round_half_even x (10 ^ (6 - ndigits)).

Definition micro_digits (x : Z) : string :=
  str_int (x / 1000000) +:+ "." +:+ str_int (x mod 1000000 / 100000)
  +:+ str_int (x mod 100000 / 10000) +:+ str_int (x mod 10000 / 1000)
  +:+ str_int (x mod 1000 / 100) +:+ str_int (x mod 100 / 10)
  +:+ str_int (x mod 10).

Definition micro_repr (x : Z) : string :=
  if x <? 0 then "-" +:+ micro_digits (- x) else micro_digits x.

#[export] Instance micro_float : PyFloat := {|
  float := Z;
  float_sub := Z.sub;
  float_mul := λ x y, x * y / 1000000;
  float_of_int := λ k, k * 1000000;
  float_round := micro_round;
  float_repr := micro_repr;
|}.

(** A process that has just started: empty store and registry, a clock
    that advances 1.5 ms per reading, and a fixed entropy source. *)
Definition fresh_world : World :=
  {| store := InMemoryStore.init;
     REQUEST_COUNT := ∅;
     REQUEST_LATENCY := ∅;
     log_output := [];
     clock := λ n, (Z.of_nat n * 1500 : float);
     clock_reads := 0;
     entropy := λ n, 0x0123456789abcdef0123456789abcdef + Z.of_nat n;
     entropy_reads := 0 |}.

(** An ordinary request: the path of its URL is the path it is routed
    by. *)
Definition make_request (method path : string) (sent : list (string * string))
    (body : RequestBody) : Request.t :=
  {| Request.method := method; Request.path := path; Request.url_path := Ok path;
     Request.headers := sent; Request.body := body;
     Request.state_request_id := None |}.

(** A request whose Host header is an unclosed bracket: [urlsplit] raises
    on the URL Starlette builds from it. *)
Definition make_request_bad_host (method path : string)
    (sent : list (string * string)) (body : RequestBody) : Request.t :=
  {| Request.method := method; Request.path := path;
     Request.url_path := Raise (ValueError "Invalid IPv6 URL");
     Request.headers := ("host", "[") :: sent; Request.body := body;
     Request.state_request_id := None |}.

(** The router's answer to an unmatched request. *)
Definition not_found (request : Request.t) : Response :=
  JSONResponse (JObj [("detail", JStr "Not Found")]) 404.

#[export] Instance not_found_framework : Framework := {|
  framework_response := not_found;
  CONTENT_TYPE_LATEST := "text/plain; version=0.0.4; charset=utf-8";
|}.

(** A downstream application that fails. *)
Definition failing_app (request : Request.t) : M Response :=
  raise (RuntimeError "boom").

(** The response a run ended with, if it did not raise. *)
Definition response_of {A} (run : result A * World) : option A :=
  match run.1 with
  | Ok a => Some a
  | Raise _ => None
  end.

(** The exception a run ended with, if it raised. *)
Definition raised_by {A} (run : result A * World) : option exn :=
  match run.1 with
  | Ok _ => None
  | Raise e => Some e
  end.


(** The sum of a measure over the children of a labelled metric. *)
Definition children_sum {V} (measure : V → Z) (m : gmap Labels V) : Z :=
  map_fold (λ _ v acc, measure v + acc) 0 m.

(** The total of [http_requests_total] over all label sets. *)
Definition total_count (m : gmap Labels Z) : Z := children_sum (λ v, v) m.


(** A lower-case hexadecimal digit. *)
Definition is_lower_hex (c : ascii) : bool :=
  let n := ord c in
  ((48 <=? n) && (n <=? 57)) || ((97 <=? n) && (n <=? 102)).

(** The six bits [UUID.__init__] overwrites: the variant (62, 63) and the
    version (76 .. 79). *)
Definition fixed_bit (j : Z) : bool :=
  (j =? 62) || (j =? 63) || (j =? 76) || (j =? 77) || (j =? 78) || (j =? 79).

(** * Properties *)

(** ** The item store *)
Module StoreFacts.
Import InMemoryStore.

Lemma inv_init : inv init.
Proof. repeat split; try constructor; done. Qed.

Lemma StronglySorted_snoc (l : list Z) (x : Z) :
  StronglySorted Z.lt l → Forall (λ y, y < x) l → StronglySorted Z.lt (l ++ [x]).
Proof.
  induction 1 as [|y l Hl IH Hy]; intros Hx; simpl.
  - repeat constructor.
  - inversion Hx; subst. constructor; [by apply IH|].
    apply Forall_app; split; [done|]. by repeat constructor.
Qed.

Lemma inv_below self :
  inv self → Forall (λ i, ItemOut.id i < _next_id self) (_items self).
Proof. intros (_ & Hb & _). eapply Forall_impl; [exact Hb|]. simpl. lia. Qed.

Lemma inv_add_item self name : inv self → inv (add_item self name).2.
Proof.
  intros (Hs & Hb & H1). repeat split; simpl; [| |lia].
  - rewrite fmap_app. apply StronglySorted_snoc; [done|].
    apply Forall_fmap. eapply Forall_impl; [exact Hb|]. simpl. lia.
  - apply Forall_app; split.
    + eapply Forall_impl; [exact Hb|]. simpl. lia.
    + repeat constructor; simpl; lia.
Qed.

Lemma inv_NoDup self : inv self → NoDup (ItemOut.id <$> _items self).
Proof.
  intros (Hs & _). induction Hs as [|x l Hl IH Hx]; constructor; [|done].
  intros Hin. rewrite Forall_forall in Hx. specialize (Hx _ Hin). lia.
Qed.


(** The items and the counter after a run of additions. *)
Lemma add_all_spec names : ∀ self,
  _items (add_all self names)
  = _items self
    ++ imap (λ k n, {| ItemOut.name := n; ItemOut.id := _next_id self + Z.of_nat k |}) names
  ∧ _next_id (add_all self names) = _next_id self + Z.of_nat (length names).
Proof.
  induction names as [|n names IH]; intros self; simpl.
  - split; [by rewrite app_nil_r | lia].
  - destruct (IH (add_item self n).2) as [Hi Hn]. unfold add_all in *. simpl in *.
    rewrite Hi, Hn. split; [|lia].
    rewrite <- app_assoc. simpl. f_equal. rewrite Z.add_0_r. f_equal.
    apply imap_ext. intros k x _. simpl. f_equal. lia.
Qed.

End StoreFacts.

(** ** Strings *)

Lemma chars_app s1 s2 : chars (s1 +:+ s2) = chars s1 ++ chars s2.
Proof. induction s1 as [|c s1 IH]; simpl; [done|]. unfold chars in *. simpl. by rewrite IH. Qed.

Lemma single_line_app s1 s2 :
  single_line s1 → single_line s2 → single_line (s1 +:+ s2).
Proof. unfold single_line. rewrite chars_app, not_elem_of_app. tauto. Qed.

Lemma single_line_String c s :
  c ≠ newline → single_line s → single_line (String c s).
Proof.
  unfold single_line, chars. simpl. intros Hc Hs Hin.
  apply elem_of_cons in Hin as [Heq|Hin]; [by apply Hc|tauto].
Qed.

Lemma single_line_closed s : bool_decide (single_line s) = true → single_line s.
Proof. intros Hb. by apply bool_decide_eq_true in Hb. Qed.

Lemma single_line_uint d : single_line (NilEmpty.string_of_uint d).
Proof.
  induction d; simpl; try (apply single_line_String; [discriminate|done]).
  unfold single_line, chars. simpl. apply not_elem_of_nil.
Qed.

Lemma single_line_str_int z : single_line (str_int z).
Proof.
  unfold str_int, NilZero.string_of_int, NilZero.string_of_uint.
  destruct (Z.to_int z) as [d|d]; [|apply single_line_String; [discriminate|]];
    destruct d; try apply single_line_uint; by apply single_line_closed.
Qed.

Lemma nibble_range n k : 0 ≤ nibble n k < 16.
Proof.
  unfold nibble. change 15 with (Z.ones 4). rewrite Z.land_ones by lia.
  apply Z.mod_pos_bound. lia.
Qed.

Lemma hex_digit_not_newline d : 0 ≤ d < 16 → hex_digit d ≠ newline.
Proof.
  intros Hd.
  assert (d = 0 ∨ d = 1 ∨ d = 2 ∨ d = 3 ∨ d = 4 ∨ d = 5 ∨ d = 6 ∨ d = 7 ∨ d = 8
          ∨ d = 9 ∨ d = 10 ∨ d = 11 ∨ d = 12 ∨ d = 13 ∨ d = 14 ∨ d = 15) as Hc by lia.
  repeat (destruct Hc as [->|Hc]; [discriminate|]). subst. discriminate.
Qed.

Lemma single_line_hex_fixed width n : single_line (hex_fixed width n).
Proof.
  induction width as [|w IH]; simpl.
  - unfold single_line, chars. simpl. apply not_elem_of_nil.
  - apply single_line_String; [|done]. apply hex_digit_not_newline, nibble_range.
Qed.

Lemma length_hex_fixed width n : String.length (hex_fixed width n) = width.
Proof. induction width; simpl; congruence. Qed.

Lemma single_line_escape_char c : single_line (escape_char c).
Proof.
  destruct c as [[] [] [] [] [] [] [] []];
    apply single_line_closed; vm_compute; reflexivity.
Qed.

Lemma single_line_escape s : single_line (escape s).
Proof.
  induction s as [|c s IH]; simpl.
  - unfold single_line, chars. simpl. apply not_elem_of_nil.
  - apply single_line_app; [apply single_line_escape_char | done].
Qed.

Lemma single_line_encode s : single_line (encode_basestring_ascii s).
Proof.
  unfold encode_basestring_ascii. apply single_line_String; [discriminate|].
  apply single_line_app; [apply single_line_escape|]. by apply single_line_closed.
Qed.

Lemma single_line_join sep parts :
  single_line sep → Forall single_line parts → single_line (join sep parts).
Proof.
  intros Hsep. induction 1 as [|p ps Hp Hps IH]; simpl.
  - unfold single_line, chars. simpl. apply not_elem_of_nil.
  - destruct ps as [|q ps]; [done|].
    apply single_line_app; [done|]. by apply single_line_app.
Qed.

(** ** Header lists *)


(** The entries under other names are kept, in their order. *)
Lemma headers_set_others key value raw :
  filter (λ kv, kv.1 ≠ lower key) (headers_set key value raw)
  = filter (λ kv, kv.1 ≠ lower key) raw.
Proof.
  induction raw as [|[k v] raw IH]; simpl.
  - rewrite filter_cons_False; [done|]. simpl. tauto.
  - destruct (String.eqb k (lower key)) eqn:E.
    + apply String.eqb_eq in E as ->.
      rewrite !filter_cons_False by (simpl; tauto).
      apply list_filter_filter_l. tauto.
    + apply String.eqb_neq in E.
      rewrite !filter_cons_True by done. by rewrite IH.
Qed.

(** Exactly one entry carries the name that was set. *)
Lemma headers_set_unique key value raw :
  filter (λ kv, kv.1 = lower key) (headers_set key value raw) = [(lower key, value)].
Proof.
  induction raw as [|[k v] raw IH]; simpl.
  - by rewrite filter_cons_True.
  - destruct (String.eqb k (lower key)) eqn:E.
    + rewrite filter_cons_True by done. f_equal.
      clear. induction raw as [|[k' v'] raw IH']; [done|].
      destruct (decide (k' = lower key)) as [->|Hne].
      * rewrite (filter_cons_False (λ kv, kv.1 ≠ _)) by (simpl; tauto). apply IH'.
      * rewrite (filter_cons_True (λ kv, kv.1 ≠ _)) by done.
        rewrite filter_cons_False by done. apply IH'.
    + apply String.eqb_neq in E. rewrite filter_cons_False by done. apply IH.
Qed.

(** ** Request ids

    The integer of a version-4 UUID fits 128 bits, so its 32 hexadecimal
    digits are all of ["%032x"]. *)
Lemma uuid4_int_high_bits r i : 128 ≤ i → Z.testbit (uuid4_int r) i = false.
Proof.
  intros Hi. unfold uuid4_int. cbv zeta.
  rewrite Z.lor_spec, Z.land_spec, Z.lor_spec, Z.land_spec.
  rewrite Z.mod_pow2_bits_high by lia.
  rewrite (Z.bits_above_log2 (Z.shiftl 32768 48) i)
    by first [done | change (Z.log2 (Z.shiftl 32768 48)) with 63; lia].
  rewrite (Z.bits_above_log2 (Z.shiftl 4 76) i)
    by first [done | change (Z.log2 (Z.shiftl 4 76)) with 78; lia].
  reflexivity.
Qed.

Lemma uuid4_int_range r : 0 ≤ uuid4_int r < 2 ^ 128.
Proof.
  assert (0 ≤ uuid4_int r) as Hnn.
  { unfold uuid4_int. cbv zeta.
    assert (0 ≤ r mod 2 ^ 128) by (apply Z.mod_pos_bound; lia).
    repeat first [apply Z.lor_nonneg; split | apply Z.land_nonneg; left | done]. }
  split; [done|].
  assert (uuid4_int r mod 2 ^ 128 = uuid4_int r) as <-; [|apply Z.mod_pos_bound; lia].
  rewrite <- Z.land_ones by lia. apply Z.bits_inj'. intros i Hi.
  rewrite Z.land_spec. destruct (decide (i < 128)) as [Hlt|Hge].
  - rewrite Z.ones_spec_low by lia. apply andb_true_r.
  - rewrite uuid4_int_high_bits by lia. reflexivity.
Qed.

(** ** The middleware *)
Section Properties.

Context {python_float : PyFloat} {framework : Framework}.

(** The state right after the first clock reading of [dispatch]. *)
Local Abbreviation started w0 := (set_clock_reads (S (clock_reads w0)) w0).

Lemma _request_id_cases request w :
  match headers_get "x-request-id" (scope_headers (Request.headers request)) with
  | Some v =>
      if String.eqb v "" then
        _request_id request w
        = (Ok (uuid4_hex (entropy w (entropy_reads w))),
           set_entropy_reads (S (entropy_reads w)) w)
      else _request_id request w = (Ok v, w)
  | None =>
      _request_id request w
      = (Ok (uuid4_hex (entropy w (entropy_reads w))),
         set_entropy_reads (S (entropy_reads w)) w)
  end.
Proof.
  unfold _request_id.
  destruct (headers_get _ _) as [v|]; [|done]. by destruct (String.eqb v "").
Qed.

Lemma uuid4_hex_nonempty r : uuid4_hex r ≠ "".
Proof.
  intros E. pose proof (length_hex_fixed 32 (uuid4_int r)) as Hl.
  unfold uuid4_hex in E. rewrite E in Hl. discriminate.
Qed.

(** The resolver always returns, with a non-empty id, and leaves everything
    but the entropy source as it was. *)
Lemma _request_id_total request w :
  ∃ rid w0, _request_id request w = (Ok rid, w0) ∧ rid ≠ ""
    ∧ store w0 = store w ∧ REQUEST_COUNT w0 = REQUEST_COUNT w
    ∧ REQUEST_LATENCY w0 = REQUEST_LATENCY w ∧ log_output w0 = log_output w.
Proof.
  pose proof (_request_id_cases request w) as Hc.
  destruct (headers_get _ _) as [v|].
  - destruct (String.eqb v "") eqn:E.
    + eexists _, _. split; [exact Hc|]. split; [apply uuid4_hex_nonempty|done].
    + apply String.eqb_neq in E. eexists _, _. split; [exact Hc|]. done.
  - eexists _, _. split; [exact Hc|]. split; [apply uuid4_hex_nonempty|done].
Qed.

(** The first header whose name is [x-request-id] in any spelling is the
    one the lookup returns. *)
Lemma headers_get_scope pre k v post :
  Forall (λ kv, lower kv.1 ≠ "x-request-id") pre →
  lower k = "x-request-id" →
  headers_get "x-request-id" (scope_headers (pre ++ (k, v) :: post)) = Some v.
Proof.
  intros Hpre Hk.
  induction Hpre as [|[k' v'] pre Hk' _ IH]; simpl;
    change (String (lower_char "x") _) with "x-request-id".
  - by rewrite Hk.
  - simpl in Hk'. apply String.eqb_neq in Hk'. by rewrite Hk'.
Qed.

(** The resolver does not read the clock, and draws from the entropy
    source only when it generates an id. *)
Lemma _request_id_sources request w rid w0 :
  _request_id request w = (Ok rid, w0) →
  clock w0 = clock w ∧ clock_reads w0 = clock_reads w ∧ entropy w0 = entropy w
  ∧ entropy_reads w0
    = match headers_get "x-request-id" (scope_headers (Request.headers request)) with
      | Some v => if String.eqb v "" then S (entropy_reads w) else entropy_reads w
      | None => S (entropy_reads w)
      end.
Proof.
  intros Hid. pose proof (_request_id_cases request w) as Hc.
  destruct (headers_get _ _) as [v|]; [destruct (String.eqb v "")|];
    rewrite Hc in Hid; by injection Hid as <- <-.
Qed.

(** What [dispatch] does when the rest of the application returns and
    [request.url.path] evaluates. *)
Lemma dispatch_ok request call_next w rid w0 response w2 path :
  _request_id request w = (Ok rid, w0) →
  call_next (set_state_request_id rid request) (started w0) = (Ok response, w2) →
  Request.url_path request = Ok path →
  let latency := float_sub (clock w2 (clock_reads w2)) (clock w0 (clock_reads w0)) in
  let labels := labels_of (Request.method request) path (status_code response) in
  let line :=
    json_dumps (log_dict rid (Request.method request) path (status_code response)
                  latency) in
  ∃ w',
    dispatch request call_next w = (Ok (set_header "x-request-id" rid response), w')
    ∧ REQUEST_COUNT w'
      = <[labels := counter_value (REQUEST_COUNT w2) labels + 1]> (REQUEST_COUNT w2)
    ∧ REQUEST_LATENCY w'
      = <[labels := observations (REQUEST_LATENCY w2) labels ++ [latency]]>
          (REQUEST_LATENCY w2)
    ∧ log_output w' = log_output w2 ++ [line]
    ∧ store w' = store w2
    ∧ clock w' = clock w2 ∧ clock_reads w' = S (clock_reads w2)
    ∧ entropy w' = entropy w2 ∧ entropy_reads w' = entropy_reads w2.
Proof.
  intros Hid Hnext Hurl. cbv zeta. eexists. split.
  - unfold dispatch, bind, url_path. rewrite Hid. simpl. rewrite Hnext. simpl.
    rewrite Hurl. simpl. reflexivity.
  - done.
Qed.

(** What [dispatch] does when the rest of the application raises: the
    exception comes out, with the state the application left. *)
Lemma dispatch_raise request call_next w rid w0 e w2 :
  _request_id request w = (Ok rid, w0) →
  call_next (set_state_request_id rid request) (started w0) = (Raise e, w2) →
  dispatch request call_next w = (Raise e, w2).
Proof.
  intros Hid Hnext. unfold dispatch, bind. rewrite Hid. simpl. by rewrite Hnext.
Qed.

(** What [dispatch] does when the rest of the application returns and
    [request.url.path] raises: the exception comes out after the second
    clock reading, and the response of the application is dropped. *)
Lemma dispatch_url_error request call_next w rid w0 response w2 e :
  _request_id request w = (Ok rid, w0) →
  call_next (set_state_request_id rid request) (started w0) = (Ok response, w2) →
  Request.url_path request = Raise e →
  dispatch request call_next w = (Raise e, set_clock_reads (S (clock_reads w2)) w2).
Proof.
  intros Hid Hnext Hurl. unfold dispatch, bind, url_path. rewrite Hid. simpl.
  rewrite Hnext. simpl. by rewrite Hurl.
Qed.


(** ** The routes *)



Lemma route_post_bad_request request detail w :
  Request.method request = "POST" → Request.path request = "/items" →
  solve_body (Request.body request) = BadRequest detail →
  route request w
  = (Ok (JSONResponse (JObj [("detail", JStr detail)]) HTTP_400_BAD_REQUEST), w).
Proof.
  intros Hm Hp Hv. unfold route. cbv zeta. rewrite Hm, Hp. simpl.
  unfold post_items. by rewrite Hv.
Qed.


Lemma route_get_health request rid w :
  Request.method request = "GET" → Request.path request = "/health" →
  Request.state_request_id request = Some rid →
  route request w
  = (Ok (JSONResponse (JObj [("status", JStr "ok"); ("request_id", JStr rid)])
           HTTP_200_OK), w).
Proof.
  intros Hm Hp Hs. unfold route. cbv zeta. rewrite Hm, Hp. simpl.
  unfold health, bind, get_state_request_id. by rewrite Hs.
Qed.

Lemma route_get_root request rid w :
  Request.method request = "GET" → Request.path request = "/" →
  Request.state_request_id request = Some rid →
  route request w
  = (Ok (JSONResponse (JObj [("message", JStr "DevOps demo API");
                             ("request_id", JStr rid)]) HTTP_200_OK), w).
Proof.
  intros Hm Hp Hs. unfold route. cbv zeta. rewrite Hm, Hp. simpl.
  unfold root, bind, get_state_request_id. by rewrite Hs.
Qed.

Lemma route_get_metrics request w :
  Request.method request = "GET" → Request.path request = "/metrics" →
  route request w
  = (Ok {| status_code := HTTP_200_OK;
           headers := [("content-type", CONTENT_TYPE_LATEST)];
           content := MetricsText (REQUEST_COUNT w) (REQUEST_LATENCY w) |}, w).
Proof. intros Hm Hp. unfold route. cbv zeta. by rewrite Hm, Hp. Qed.

(** Inside the middleware every route returns a response; it leaves the
    registry, the log, the clock and the entropy source alone, and the
    store changes only by the item a valid [POST /items] adds. *)
Lemma route_total request rid w :
  Request.state_request_id request = Some rid →
  ∃ response w',
    route request w = (Ok response, w') ∧ same_observers w w'
    ∧ entropy w' = entropy w ∧ entropy_reads w' = entropy_reads w
    ∧ store w' = match created_name request with
                 | Some n => (InMemoryStore.add_item (store w) n).2
                 | None => store w
                 end.
Proof.
  intros Hs. unfold route, created_name. cbv zeta.
  destruct (String.eqb (Request.method request) "GET") eqn:Hg.
  - apply String.eqb_eq in Hg. rewrite Hg. simpl.
    unfold health, list_items, metrics, root, bind, store_list_items,
      generate_latest, get_state_request_id. rewrite Hs.
    repeat (destruct (String.eqb (Request.path request) _); simpl;
            [by eexists _, _|]).
    by eexists _, _.
  - simpl. destruct (String.eqb (Request.method request) "POST"); simpl;
      [|by eexists _, _].
    destruct (String.eqb (Request.path request) "/items"); simpl;
      [|by eexists _, _].
    unfold post_items.
    destruct (solve_body (Request.body request)) as [detail|errors|payload];
      [by eexists _, _..|].
    unfold create_item, bind, store_add_item, get_state_request_id. simpl.
    rewrite Hs. by eexists _, _.
Qed.

(** ** The application *)

(** One request through the application, up to the point where the
    middleware builds its labels: the id, the response of the route, and
    the state the route leaves. *)
Lemma app_route request w :
  ∃ rid w0 response w2,
    _request_id request w = (Ok rid, w0) ∧ rid ≠ ""
    ∧ route (set_state_request_id rid request) (started w0) = (Ok response, w2)
    ∧ store w0 = store w
    ∧ store w2 = match created_name request with
                 | Some n => (InMemoryStore.add_item (store w) n).2
                 | None => store w
                 end
    ∧ REQUEST_COUNT w2 = REQUEST_COUNT w ∧ REQUEST_LATENCY w2 = REQUEST_LATENCY w
    ∧ log_output w2 = log_output w
    ∧ clock w0 = clock w ∧ clock_reads w0 = clock_reads w
    ∧ clock w2 = clock w ∧ clock_reads w2 = S (clock_reads w)
    ∧ entropy w2 = entropy w
    ∧ entropy_reads w2
      = match headers_get "x-request-id" (scope_headers (Request.headers request)) with
        | Some v => if String.eqb v "" then S (entropy_reads w) else entropy_reads w
        | None => S (entropy_reads w)
        end.
Proof.
  destruct (_request_id_total request w) as (rid & w0 & Hid & Hne & Hst & Hc & Hl & Hlog).
  destruct (_request_id_sources _ _ _ _ Hid) as (Hk & Hkr & He & Her).
  destruct (route_total (set_state_request_id rid request) rid (started w0) eq_refl)
    as (response & w2 & Hr & (Hc2 & Hl2 & Hlog2 & Hk2 & Hkr2) & He2 & Her2 & Hst2).
  exists rid, w0, response, w2. simpl in *.
  repeat split; try done; try congruence.
  by rewrite Hst2, Hst.
Qed.

(** A request whose URL can be built gets a response: the one its route
    returns, with the request id header; the counter and the histogram
    child of its label set move by one, the log grows by one line. *)
Lemma app_ok request w path :
  Request.url_path request = Ok path →
  ∃ rid w0 response w2 w',
    _request_id request w = (Ok rid, w0) ∧ rid ≠ ""
    ∧ route (set_state_request_id rid request) (started w0) = (Ok response, w2)
    ∧ store w0 = store w
    ∧ app request w = (Ok (set_header "x-request-id" rid response), w')
    ∧ store w' = match created_name request with
                 | Some n => (InMemoryStore.add_item (store w) n).2
                 | None => store w
                 end
    ∧ REQUEST_COUNT w'
      = <[labels_of (Request.method request) path (status_code response)
          := counter_value (REQUEST_COUNT w)
               (labels_of (Request.method request) path (status_code response)) + 1]>
          (REQUEST_COUNT w)
    ∧ REQUEST_LATENCY w'
      = <[labels_of (Request.method request) path (status_code response)
          := observations (REQUEST_LATENCY w)
               (labels_of (Request.method request) path (status_code response))
             ++ [float_sub (clock w (S (clock_reads w))) (clock w (clock_reads w))]]>
          (REQUEST_LATENCY w)
    ∧ log_output w'
      = log_output w
        ++ [json_dumps
              (log_dict rid (Request.method request) path (status_code response)
                 (float_sub (clock w (S (clock_reads w))) (clock w (clock_reads w))))].
Proof.
  intros Hurl.
  destruct (app_route request w)
    as (rid & w0 & response & w2 & Hid & Hne & Hr & Hst0 & Hst & Hc & Hl & Hlog
        & Hk0 & Hkr0 & Hk & Hkr & _).
  destruct (dispatch_ok request route w rid w0 response w2 path Hid Hr Hurl)
    as (w' & Hd & Hc' & Hl' & Hlog' & Hst' & _).
  exists rid, w0, response, w2, w'.
  rewrite Hc, Hl, Hlog, Hk, Hkr, Hk0, Hkr0 in *.
  repeat split; try done. by rewrite Hst'.
Qed.


(** What a request leaves behind, whether the middleware answers it or
    not: the store (changed only by the item of a valid [POST /items]),
    the clock after two readings, the entropy source after at most one
    draw. *)
Lemma app_state request w :
  store (app request w).2
  = match created_name request with
    | Some n => (InMemoryStore.add_item (store w) n).2
    | None => store w
    end
  ∧ clock (app request w).2 = clock w
  ∧ clock_reads (app request w).2 = S (S (clock_reads w))
  ∧ entropy (app request w).2 = entropy w
  ∧ entropy_reads (app request w).2
    = match headers_get "x-request-id" (scope_headers (Request.headers request)) with
      | Some v => if String.eqb v "" then S (entropy_reads w) else entropy_reads w
      | None => S (entropy_reads w)
      end.
Proof.
  destruct (app_route request w)
    as (rid & w0 & response & w2 & Hid & Hne & Hr & Hst0 & Hst & Hc & Hl & Hlog
        & Hk0 & Hkr0 & Hk & Hkr & He & Her).
  destruct (Request.url_path request) as [path|e] eqn:Hurl.
  - destruct (dispatch_ok request route w rid w0 response w2 path Hid Hr Hurl)
      as (w' & Hd & _ & _ & _ & Hst' & Hk' & Hkr' & He' & Her').
    unfold app. rewrite Hd. simpl.
    by rewrite Hst', Hst, Hk', Hk, Hkr', Hkr, He', He, Her', Her.
  - unfold app. rewrite (dispatch_url_error request route w rid w0 response w2 e Hid Hr Hurl).
    simpl. by rewrite Hst, Hk, Hkr, He, Her.
Qed.



Lemma counter_value_insert (m : gmap Labels Z) l l' :
  counter_value (<[l := counter_value m l + 1]> m) l'
  = counter_value m l' + (if decide (l = l') then 1 else 0).
Proof.
  unfold counter_value at 1. rewrite lookup_insert. case_decide; subst; simpl.
  - done.
  - unfold counter_value. lia.
Qed.





Lemma single_line_json_dumps d :
  (∀ x, single_line (float_repr x)) → single_line (json_dumps d).
Proof.
  intros Hrepr. unfold json_dumps.
  apply single_line_app; [by apply single_line_closed|].
  apply single_line_app; [|by apply single_line_closed].
  apply single_line_join; [by apply single_line_closed|].
  apply Forall_fmap, Forall_forall. intros [k v] _. unfold dumps_member. simpl.
  apply single_line_app; [apply single_line_encode|].
  apply single_line_app; [by apply single_line_closed|].
  destruct v; simpl; [apply single_line_encode | apply single_line_str_int | apply Hrepr].
Qed.






(** ** The claims *)


(** C2, as amended. When the rest of the application raises, [dispatch]
    raises the same exception and the state is the one the application
    left: no counter is incremented, no latency is observed and no line is
    logged; the exception is neither swallowed nor replaced. *)
Theorem dispatch_error_propagates request call_next w rid w0 e w2 :
  _request_id request w = (Ok rid, w0) →
  call_next (set_state_request_id rid request) (started w0) = (Raise e, w2) →
  ∃ w',
    dispatch request call_next w = (Raise e, w')
    ∧ REQUEST_COUNT w' = REQUEST_COUNT w2
    ∧ REQUEST_LATENCY w' = REQUEST_LATENCY w2
    ∧ log_output w' = log_output w2.
Proof.
  intros Hid Hnext. exists w2. by rewrite (dispatch_raise _ _ _ _ _ _ _ Hid Hnext).
Qed.


(** C4. The store invariant (ids strictly increasing along the list, hence
    unique, at least 1 and below the counter) holds of a new store, whose
    first item gets id 1, and every operation keeps it: [add_item] appends
    one item whose id is above all earlier ones, leaves the earlier items
    in place and moves the counter up; [list_items] returns the items and
    leaves the store as it was. *)
Theorem store_invariant_preserved self name w :
  InMemoryStore.inv InMemoryStore.init
  ∧ ItemOut.id (InMemoryStore.add_item InMemoryStore.init name).1 = 1
  ∧ (InMemoryStore.inv self →
       let item := (InMemoryStore.add_item self name).1 in
       let self' := (InMemoryStore.add_item self name).2 in
       InMemoryStore.inv self'
       ∧ NoDup (ItemOut.id <$> InMemoryStore._items self')
       ∧ Forall (λ i, ItemOut.id i < ItemOut.id item) (InMemoryStore._items self)
       ∧ InMemoryStore._items self' = InMemoryStore._items self ++ [item]
       ∧ InMemoryStore._next_id self < InMemoryStore._next_id self')
  ∧ InMemoryStore.list_items self = InMemoryStore._items self
  ∧ store_list_items w = (Ok (InMemoryStore._items (store w)), w).
Proof.
  split; [apply StoreFacts.inv_init|]. split; [done|]. split; [|done].
  intros Hinv. cbv zeta.
  split; [by apply StoreFacts.inv_add_item|].
  split; [by apply StoreFacts.inv_NoDup, StoreFacts.inv_add_item|].
  split; [by apply StoreFacts.inv_below|].
  split; [done|]. simpl. lia.
Qed.




(** C8, as amended. Whenever [dispatch] returns a response, it is the one
    the rest of the application returned, with the same status code, the
    same content and the same headers under every other name, in the same
    order; only the [x-request-id] header is set. It returns one whenever
    the rest of the application returned and [request.url.path]
    evaluated. *)
Theorem response_unchanged request call_next w rid w0 response w2 path :
  _request_id request w = (Ok rid, w0) →
  call_next (set_state_request_id rid request) (started w0) = (Ok response, w2) →
  Request.url_path request = Ok path →
  (∃ response' w',
     dispatch request call_next w = (Ok response', w')
     ∧ status_code response' = status_code response
     ∧ content response' = content response
     ∧ filter (λ kv, kv.1 ≠ "x-request-id") (headers response')
       = filter (λ kv, kv.1 ≠ "x-request-id") (headers response)
     ∧ filter (λ kv, kv.1 = "x-request-id") (headers response')
       = [("x-request-id", rid)])
  ∧ (∀ returned w',
       dispatch request call_next w = (Ok returned, w') →
       status_code returned = status_code response
       ∧ content returned = content response
       ∧ filter (λ kv, kv.1 ≠ "x-request-id") (headers returned)
         = filter (λ kv, kv.1 ≠ "x-request-id") (headers response)).
Proof.
  intros Hid Hnext Hurl.
  destruct (dispatch_ok _ _ _ _ _ _ _ _ Hid Hnext Hurl) as (w' & Hd & _).
  split.
  - eexists _, w'. split; [exact Hd|]. split; [done|]. split; [done|].
    split; [apply (headers_set_others "x-request-id")
           | apply (headers_set_unique "x-request-id")].
  - intros returned w'' Hd'. rewrite Hd in Hd'. injection Hd' as <- _.
    split; [done|]. split; [done|]. apply (headers_set_others "x-request-id").
Qed.

(** C9, as amended. For a request for which the middleware returns a
    response (its handler chain returned one and [request.url.path]
    evaluated), [dispatch] writes exactly one log line, after the status is
    known: the JSON object with the members [request_id], [method], [path],
    [status] and [latency_ms], in this order and no others, where [path] is
    [request.url.path], [status] is the status code of the response and
    [latency_ms] is [round(latency * 1000, 3)]; the line holds no line
    feed. *)
Theorem log_record_emitted request call_next w rid w0 response w2 path :
  (∀ x, single_line (float_repr x)) →
  _request_id request w = (Ok rid, w0) →
  call_next (set_state_request_id rid request) (started w0) = (Ok response, w2) →
  Request.url_path request = Ok path →
  let latency := float_sub (clock w2 (clock_reads w2)) (clock w0 (clock_reads w0)) in
  ∃ response' w' line,
    dispatch request call_next w = (Ok response', w')
    ∧ log_output w' = log_output w2 ++ [line]
    ∧ line
      = json_dumps
          [("request_id", PyStr rid);
           ("method", PyStr (Request.method request));
           ("path", PyStr path);
           ("status", PyInt (status_code response'));
           ("latency_ms", PyFlt (float_round (float_mul latency (float_of_int 1000)) 3))]
    ∧ single_line line.
Proof.
  intros Hrepr Hid Hnext Hurl. cbv zeta.
  destruct (dispatch_ok _ _ _ _ _ _ _ _ Hid Hnext Hurl)
    as (w' & Hd & _ & _ & Hlog & _).
  eexists _, w', _. split; [exact Hd|]. split; [exact Hlog|].
  split; [done|]. by apply single_line_json_dumps.
Qed.

(** C10. After any run of additions to a new store the counter is the
    number of items plus one, the ids are 1, 2, ..., N in this order, and
    the item at position [k] (from 0) has id [k + 1] and the [k]-th name. *)
Theorem store_ids_consecutive names :
  let self := InMemoryStore.add_all InMemoryStore.init names in
  InMemoryStore._next_id self = Z.of_nat (length (InMemoryStore._items self)) + 1
  ∧ length (InMemoryStore._items self) = length names
  ∧ ItemOut.id <$> InMemoryStore._items self = Z.of_nat <$> seq 1 (length names)
  ∧ ∀ k item, InMemoryStore._items self !! k = Some item →
      ItemOut.id item = Z.of_nat k + 1 ∧ names !! k = Some (ItemOut.name item).
Proof.
  cbv zeta.
  destruct (StoreFacts.add_all_spec names InMemoryStore.init) as [Hi Hn].
  simpl in Hi, Hn. rewrite Hi, Hn, length_imap.
  split; [lia|]. split; [done|]. split.
  - rewrite fmap_imap. apply list_eq. intros k.
    rewrite list_lookup_imap, list_lookup_fmap.
    destruct (decide (k < length names)%nat) as [Hlt|Hge].
    + rewrite lookup_seq_lt by done.
      destruct (lookup_lt_is_Some_2 names k Hlt) as [n ->]. simpl. f_equal. lia.
    + rewrite lookup_seq_ge by lia. rewrite (lookup_ge_None_2 names k) by lia. done.
  - intros k item Hk. rewrite list_lookup_imap in Hk.
    destruct (names !! k) as [n|]; simpl in Hk; [|done].
    injection Hk as <-. simpl. split; [lia|done].
Qed.

End Properties.

(** ** The model at work

    The lemmas of this part run the service on the decimal instance, from
    a process that has just started. *)

Lemma single_line_micro_repr (x : Z) : single_line (micro_repr x).
Proof.
  assert (∀ y, single_line (micro_digits y)) as Hd.
  { intros y. unfold micro_digits.
    repeat (apply single_line_app;
            [first [apply single_line_str_int | by apply single_line_closed]|]).
    apply single_line_str_int. }
  unfold micro_repr. destruct (x <? 0); [|apply Hd].
  apply single_line_app; [by apply single_line_closed | apply Hd].
Qed.



(** C2: with a handler that raises, the exception comes out and the
    request is not counted, not timed and not logged. *)
Lemma failing_handler_not_recorded :
  raised_by (dispatch (make_request "GET" "/health" [] NoBody) failing_app
               fresh_world)
  = Some (RuntimeError "boom")
  ∧ counter_value
      (REQUEST_COUNT (dispatch (make_request "GET" "/health" [] NoBody)
                        failing_app fresh_world).2)
      ("GET", "/health", "500")
    = 0
  ∧ observations
      (REQUEST_LATENCY (dispatch (make_request "GET" "/health" [] NoBody)
                          failing_app fresh_world).2)
      ("GET", "/health", "500")
    = []
  ∧ log_output (dispatch (make_request "GET" "/health" [] NoBody) failing_app
                  fresh_world).2
    = [].
Proof. repeat split; vm_compute; reflexivity. Qed.

Lemma dispatch_error_propagates_witness :
  ∃ w',
    dispatch (make_request "POST" "/items" [("x-request-id", "abc")] NoBody)
      failing_app fresh_world
    = (Raise (RuntimeError "boom"), w')
    ∧ REQUEST_COUNT w' = ∅ ∧ REQUEST_LATENCY w' = ∅ ∧ log_output w' = [].
Proof.
  exact (dispatch_error_propagates
           (make_request "POST" "/items" [("x-request-id", "abc")] NoBody)
           failing_app fresh_world "abc" fresh_world (RuntimeError "boom")
           (set_clock_reads 1 fresh_world) eq_refl eq_refl).
Defined.



Lemma store_invariant_preserved_witness :
  InMemoryStore.inv (InMemoryStore.add_item InMemoryStore.init "widget").2.
Proof.
  exact (proj1 (proj1 (proj2 (proj2 (store_invariant_preserved
                                       InMemoryStore.init "widget" fresh_world)))
                  StoreFacts.inv_init)).
Defined.







(** C8: the handler of [GET /] returns its response, then
    [request.url.path] raises: the middleware returns no response, the one
    of the handler is dropped. *)
Lemma handler_response_dropped :
  status_code
    <$> response_of
          (route
             (set_state_request_id "abc"
                (make_request_bad_host "GET" "/" [("x-request-id", "abc")] NoBody))
             (set_clock_reads 1 fresh_world))
  = Some 200
  ∧ status_code
      <$> response_of
            (dispatch (make_request_bad_host "GET" "/" [("x-request-id", "abc")] NoBody)
               route fresh_world)
    = None
  ∧ raised_by
      (dispatch (make_request_bad_host "GET" "/" [("x-request-id", "abc")] NoBody)
         route fresh_world)
    = Some (ValueError "Invalid IPv6 URL").
Proof. repeat split; vm_compute; reflexivity. Qed.

Lemma response_unchanged_witness :
  ∃ response' w',
    dispatch (make_request "GET" "/health" [("x-request-id", "abc")] NoBody)
      route fresh_world
    = (Ok response', w')
    ∧ status_code response' = 200
    ∧ content response'
      = JsonContent (JObj [("status", JStr "ok"); ("request_id", JStr "abc")])
    ∧ filter (λ kv, kv.1 ≠ "x-request-id") (headers response')
      = [("content-type", "application/json")].
Proof.
  destruct (proj1 (response_unchanged
              (make_request "GET" "/health" [("x-request-id", "abc")] NoBody)
              route fresh_world "abc" fresh_world
              (JSONResponse (JObj [("status", JStr "ok"); ("request_id", JStr "abc")]) 200)
              (set_clock_reads 1 fresh_world) "/health" eq_refl eq_refl eq_refl))
    as (response' & w' & Hd & Hs & Hc & Hh & _).
  exists response', w'. split; [exact Hd|]. split; [exact Hs|].
  split; [exact Hc | exact Hh].
Defined.

(** C9: with a handler that raises, the middleware writes no log line at
    all. *)
Lemma failing_handler_not_logged :
  raised_by (dispatch (make_request "GET" "/" [("x-request-id", "abc")] NoBody)
               failing_app fresh_world)
  = Some (RuntimeError "boom")
  ∧ length (log_output
              (dispatch (make_request "GET" "/" [("x-request-id", "abc")] NoBody)
                 failing_app fresh_world).2)
    = 0%nat.
Proof. repeat split; vm_compute; reflexivity. Qed.

Lemma log_record_emitted_witness :
  ∃ response' w' line,
    dispatch (make_request "GET" "/health" [("x-request-id", "abc")] NoBody)
      route fresh_world
    = (Ok response', w')
    ∧ log_output w' = [line]
    ∧ single_line line.
Proof.
  destruct (log_record_emitted
              (make_request "GET" "/health" [("x-request-id", "abc")] NoBody)
              route fresh_world "abc" fresh_world
              (JSONResponse (JObj [("status", JStr "ok"); ("request_id", JStr "abc")]) 200)
              (set_clock_reads 1 fresh_world) "/health"
              single_line_micro_repr eq_refl eq_refl eq_refl)
    as (response' & w' & line & Hd & Hl & _ & Hs).
  exists response', w', line. split; [exact Hd|]. split; [exact Hl | exact Hs].
Defined.

Lemma store_ids_consecutive_witness :
  ItemOut.id <$> InMemoryStore._items
                   (InMemoryStore.add_all InMemoryStore.init ["widget"; "gadget"])
  = [1; 2].
Proof.
  exact (proj1 (proj2 (proj2 (store_ids_consecutive ["widget"; "gadget"])))).
Defined.

(** The log line of that request, as the decimal instance prints it. *)
Example log_line_health :
  log_output
    (app (make_request "GET" "/health" [("x-request-id", "abc")] NoBody)
       fresh_world).2
  = [String.concat (String dquote EmptyString)
       ["{"; "request_id"; ": "; "abc"; ", "; "method"; ": "; "GET"; ", ";
        "path"; ": "; "/health"; ", "; "status"; ": 200, ";
        "latency_ms"; ": 1.500000}"]].
Proof. vm_compute. reflexivity. Qed.

(** * More of the code

    Properties of the parts the ten claims do not reach: the shape and the
    collisions of generated ids, the handlers of [/health], [/], [/metrics],
    handlers called without the middleware, and what a run of requests
    leaves in the store, the registry and the log. *)

(** ** Generated ids, bit by bit *)

(** The bits of the integer of a version-4 UUID: the six fixed bits hold
    the variant [10] and the version [0100], the others are the random
    ones. *)
Lemma uuid4_int_testbit r j :
  0 ≤ j →
  Z.testbit (uuid4_int r) j
  = if fixed_bit j then (j =? 63) || (j =? 78) else Z.testbit (r mod 2 ^ 128) j.
Proof.
  intros Hj. unfold uuid4_int, fixed_bit. cbv zeta.
  change (Z.shiftl 49152 48) with (Z.lor (2 ^ 62) (2 ^ 63)).
  change (Z.shiftl 32768 48) with (2 ^ 63).
  change (Z.shiftl 61440 64)
    with (Z.lor (Z.lor (2 ^ 76) (2 ^ 77)) (Z.lor (2 ^ 78) (2 ^ 79))).
  change (Z.shiftl 4 76) with (2 ^ 78).
  repeat first [rewrite Z.lor_spec | rewrite Z.land_spec | rewrite Z.lnot_spec by lia].
  rewrite !Z.pow2_bits_eqb by lia.
  rewrite !(Z.eqb_sym _ j).
  generalize (Z.testbit (r mod 2 ^ 128) j). intros t.
  destruct (Z.eqb_spec j 62), (Z.eqb_spec j 63), (Z.eqb_spec j 76),
    (Z.eqb_spec j 77), (Z.eqb_spec j 78), (Z.eqb_spec j 79);
    try lia; by destruct t.
Qed.

Lemma nibble_testbit n k i :
  0 ≤ i < 4 → Z.testbit (nibble n k) i = Z.testbit n (4 * Z.of_nat k + i).
Proof.
  intros Hi. unfold nibble. change 15 with (Z.ones 4).
  rewrite Z.land_spec, Z.ones_spec_low, andb_true_r by lia.
  rewrite Z.shiftr_spec by lia. f_equal. lia.
Qed.

(** A nibble is the sum of its four bits. *)
Lemma nibble_bits n k :
  nibble n k
  = Z.b2z (Z.testbit n (4 * Z.of_nat k))
    + 2 * Z.b2z (Z.testbit n (4 * Z.of_nat k + 1))
    + 4 * Z.b2z (Z.testbit n (4 * Z.of_nat k + 2))
    + 8 * Z.b2z (Z.testbit n (4 * Z.of_nat k + 3)).
Proof.
  rewrite <- (Z.add_0_r (4 * Z.of_nat k)) at 1.
  rewrite <- !nibble_testbit by lia.
  pose proof (nibble_range n k) as Hr. generalize dependent (nibble n k). intros d Hd.
  assert (d = 0 ∨ d = 1 ∨ d = 2 ∨ d = 3 ∨ d = 4 ∨ d = 5 ∨ d = 6 ∨ d = 7 ∨ d = 8
          ∨ d = 9 ∨ d = 10 ∨ d = 11 ∨ d = 12 ∨ d = 13 ∨ d = 14 ∨ d = 15) as Hc by lia.
  repeat (destruct Hc as [->|Hc]; [reflexivity|]). by subst.
Qed.

Lemma ord_hex_digit d :
  0 ≤ d < 16 → ord (hex_digit d) = if d <? 10 then 48 + d else 87 + d.
Proof.
  intros Hd. unfold ord, hex_digit.
  destruct (d <? 10); rewrite N_ascii_embedding; lia.
Qed.

Lemma hex_digit_inj a b :
  0 ≤ a < 16 → 0 ≤ b < 16 → hex_digit a = hex_digit b → a = b.
Proof.
  intros Ha Hb E. apply (f_equal ord) in E. rewrite !ord_hex_digit in E by done.
  destruct (Z.ltb_spec a 10), (Z.ltb_spec b 10); lia.
Qed.

Lemma is_lower_hex_digit d : 0 ≤ d < 16 → is_lower_hex (hex_digit d) = true.
Proof.
  intros Hd. unfold is_lower_hex. cbv zeta. rewrite ord_hex_digit by done.
  destruct (Z.ltb_spec d 10); lia.
Qed.

Lemma hex_fixed_lower width n : forallb is_lower_hex (chars (hex_fixed width n)) = true.
Proof.
  induction width as [|w IH]; [done|].
  unfold chars in *. simpl. rewrite IH, is_lower_hex_digit; [done|apply nibble_range].
Qed.

(** Two numbers with the same [width] digits have the same nibbles below
    [width]. *)
Lemma hex_fixed_nibbles width a b :
  hex_fixed width a = hex_fixed width b →
  ∀ k, (k < width)%nat → nibble a k = nibble b k.
Proof.
  induction width as [|w IH]; intros E k Hk; [lia|].
  simpl in E. injection E as Ed Es.
  destruct (decide (k = w)) as [->|Hne].
  - apply hex_digit_inj; [apply nibble_range..|done].
  - apply IH; [done|lia].
Qed.

Lemma uuid4_hex_int x y : uuid4_hex x = uuid4_hex y → uuid4_int x = uuid4_int y.
Proof.
  intros E. apply Z.bits_inj'. intros j Hj.
  destruct (decide (j < 128)) as [Hlt|Hge].
  - pose proof (hex_fixed_nibbles 32 _ _ E (Z.to_nat (j / 4))) as Hn.
    assert (j = 4 * Z.of_nat (Z.to_nat (j / 4)) + j mod 4) as ->.
    { rewrite Z2Nat.id by (apply Z.div_pos; lia). apply Z.div_mod. lia. }
    rewrite <- !nibble_testbit by (apply Z.mod_pos_bound; lia).
    rewrite Hn; [done|].
    assert (j / 4 < 32) by (apply Z.div_lt_upper_bound; lia).
    assert (0 ≤ j / 4) by (apply Z.div_pos; lia). lia.
  - by rewrite !uuid4_int_high_bits by lia.
Qed.

(** X1. A generated id is 32 lower-case hexadecimal digits; the 13th is
    the version [4] and the 17th, which holds the variant, is one of [8],
    [9], [a], [b], whatever bytes the entropy source returned. *)
Theorem uuid4_hex_format r :
  String.length (uuid4_hex r) = 32%nat
  ∧ forallb is_lower_hex (chars (uuid4_hex r)) = true
  ∧ String.get 12 (uuid4_hex r) = Some "4"%char
  ∧ ∃ c, String.get 16 (uuid4_hex r) = Some c
         ∧ c ∈ ["8"%char; "9"%char; "a"%char; "b"%char].
Proof.
  split; [apply length_hex_fixed|]. split; [apply hex_fixed_lower|]. split.
  - change (String.get 12 (uuid4_hex r)) with (Some (hex_digit (nibble (uuid4_int r) 19))).
    rewrite nibble_bits, !uuid4_int_testbit by lia. reflexivity.
  - exists (hex_digit (nibble (uuid4_int r) 15)). split; [reflexivity|].
    rewrite nibble_bits, !uuid4_int_testbit by lia.
    change (fixed_bit (4 * Z.of_nat 15)) with false.
    change (fixed_bit (4 * Z.of_nat 15 + 1)) with false.
    change (fixed_bit (4 * Z.of_nat 15 + 2)) with true.
    change (fixed_bit (4 * Z.of_nat 15 + 3)) with true.
    cbv iota.
    destruct (Z.testbit (r mod 2 ^ 128) (4 * Z.of_nat 15)),
      (Z.testbit (r mod 2 ^ 128) (4 * Z.of_nat 15 + 1)); set_solver.
Qed.

(** X2. Two entropy draws give the same id exactly when they agree on the
    122 bits of their 16 bytes that are not overwritten by the variant and
    the version: any difference in those bits gives a different id. *)
Theorem uuid4_hex_collision x y :
  uuid4_hex x = uuid4_hex y
  ↔ ∀ j, 0 ≤ j < 128 → fixed_bit j = false → Z.testbit x j = Z.testbit y j.
Proof.
  split.
  - intros E j Hj Hfree. apply uuid4_hex_int in E.
    apply (f_equal (λ n, Z.testbit n j)) in E.
    rewrite !uuid4_int_testbit, Hfree in E by lia.
    by rewrite !Z.mod_pow2_bits_low in E by lia.
  - intros Hbits. unfold uuid4_hex. f_equal. apply Z.bits_inj'. intros j Hj.
    rewrite !uuid4_int_testbit by done.
    destruct (fixed_bit j) eqn:Hf; [done|].
    destruct (decide (j < 128)) as [Hlt|Hge].
    + rewrite !Z.mod_pow2_bits_low by lia. apply Hbits; [lia|done].
    + by rewrite !Z.mod_pow2_bits_high by lia.
Qed.

(** ** The other routes, and runs of requests *)
Section Coverage.

Context {python_float : PyFloat} {framework : Framework}.

Local Abbreviation started w0 := (set_clock_reads (S (clock_reads w0)) w0).

Lemma created_name_get request :
  Request.method request = "GET" → created_name request = None.
Proof. intros Hm. unfold created_name. by rewrite Hm. Qed.

(** X3. [GET /health] leaves the store as it was, and when the URL of the
    request can be built it is answered 200 with [status] "ok" and the
    resolved request id, whatever the store holds. *)
Theorem health_always_ok request w :
  Request.method request = "GET" → Request.path request = "/health" →
  store (app request w).2 = store w
  ∧ ∀ path,
      Request.url_path request = Ok path →
      ∃ rid w0 w',
        _request_id request w = (Ok rid, w0)
        ∧ app request w
          = (Ok (set_header "x-request-id" rid
                   (JSONResponse (JObj [("status", JStr "ok"); ("request_id", JStr rid)])
                      200)), w').
Proof.
  intros Hm Hp. split.
  - destruct (app_state request w) as (-> & _). by rewrite created_name_get.
  - intros path Hurl.
    destruct (app_ok request w path Hurl)
      as (rid & w0 & response & w2 & w' & Hid & _ & Hr & _ & Ha & _).
    rewrite (route_get_health _ rid) in Hr by done. injection Hr as <- <-.
    by exists rid, w0, w'.
Qed.

(** X4. [GET /] leaves the store as it was, and when the URL of the
    request can be built it is answered 200 with the message
    "DevOps demo API" and the resolved request id. *)
Theorem root_always_ok request w :
  Request.method request = "GET" → Request.path request = "/" →
  store (app request w).2 = store w
  ∧ ∀ path,
      Request.url_path request = Ok path →
      ∃ rid w0 w',
        _request_id request w = (Ok rid, w0)
        ∧ app request w
          = (Ok (set_header "x-request-id" rid
                   (JSONResponse (JObj [("message", JStr "DevOps demo API");
                                        ("request_id", JStr rid)]) 200)), w').
Proof.
  intros Hm Hp. split.
  - destruct (app_state request w) as (-> & _). by rewrite created_name_get.
  - intros path Hurl.
    destruct (app_ok request w path Hurl)
      as (rid & w0 & response & w2 & w' & Hid & _ & Hr & _ & Ha & _).
    rewrite (route_get_root _ rid) in Hr by done. injection Hr as <- <-.
    by exists rid, w0, w'.
Qed.

(** X5. A [GET /metrics] whose URL can be built is answered 200 with the
    exposition content type and the registry as it stood when the request
    came in: the request itself is counted after the snapshot is taken, so
    the counter of [(GET, request.url.path, 200)] afterwards is one above
    the value the response shows. The store is not touched. *)
Theorem metrics_snapshot request w path :
  Request.method request = "GET" → Request.path request = "/metrics" →
  Request.url_path request = Ok path →
  ∃ rid w',
    app request w
    = (Ok (set_header "x-request-id" rid
             {| status_code := 200;
                headers := [("content-type", CONTENT_TYPE_LATEST)];
                content := MetricsText (REQUEST_COUNT w) (REQUEST_LATENCY w) |}), w')
    ∧ counter_value (REQUEST_COUNT w') ("GET", path, "200")
      = counter_value (REQUEST_COUNT w) ("GET", path, "200") + 1
    ∧ store w' = store w.
Proof.
  intros Hm Hp Hurl.
  destruct (app_ok request w path Hurl)
    as (rid & w0 & response & w2 & w' & Hid & _ & Hr & _ & Ha & Hst & Hc & _).
  destruct (_request_id_total request w) as (rid' & w0' & Hid' & _ & _ & Hc0 & Hl0 & _).
  rewrite Hid in Hid'. injection Hid' as <- <-.
  rewrite route_get_metrics in Hr by done. simpl in Hr. rewrite Hc0, Hl0 in Hr.
  injection Hr as <- _.
  exists rid, w'. split; [done|]. split; [|by rewrite Hst, created_name_get].
  rewrite Hc, counter_value_insert. unfold labels_of. rewrite Hm.
  change (str_int (status_code _)) with "200". by rewrite decide_True.
Qed.



(** X8. Called without the middleware, a handler that reads
    [request.state.request_id] raises [AttributeError]. [health],
    [list_items] and [root] leave the state as it was; [create_item] has
    already appended the item and moved the counter when it raises. *)
Theorem handlers_need_request_id request payload w :
  Request.state_request_id request = None →
  health request w = (Raise (AttributeError "request_id"), w)
  ∧ list_items request w = (Raise (AttributeError "request_id"), w)
  ∧ root request w = (Raise (AttributeError "request_id"), w)
  ∧ ∃ w',
      create_item payload request w = (Raise (AttributeError "request_id"), w')
      ∧ InMemoryStore._items (store w')
        = InMemoryStore._items (store w)
          ++ [{| ItemOut.name := ItemIn.name payload;
                 ItemOut.id := InMemoryStore._next_id (store w) |}]
      ∧ InMemoryStore._next_id (store w') = InMemoryStore._next_id (store w) + 1.
Proof.
  intros Hs.
  unfold health, list_items, root, create_item, bind, store_list_items,
    store_add_item, get_state_request_id.
  rewrite Hs. simpl. repeat split; try done. by eexists.
Qed.

Lemma headers_get_scope_absent sent :
  Forall (λ kv, lower kv.1 ≠ "x-request-id") sent →
  headers_get "x-request-id" (scope_headers sent) = None.
Proof.
  induction 1 as [|[k v] sent Hk _ IH]; [done|]. simpl.
  change (String (lower_char "x") _) with "x-request-id".
  simpl in Hk. apply String.eqb_neq in Hk. by rewrite Hk.
Qed.

(** X9. An id is generated when no header is named [x-request-id] in any
    spelling, and also when the first such header is empty, even if a
    later header of that name carries a value: only the first one is
    looked at. *)
Theorem first_header_decides request w :
  Forall (λ kv, lower kv.1 ≠ "x-request-id") (Request.headers request)
  ∨ (∃ pre k post,
       Request.headers request = pre ++ (k, "") :: post
       ∧ Forall (λ kv, lower kv.1 ≠ "x-request-id") pre
       ∧ lower k = "x-request-id") →
  _request_id request w
  = (Ok (uuid4_hex (entropy w (entropy_reads w))),
     set_entropy_reads (S (entropy_reads w)) w).
Proof.
  intros Hh. pose proof (_request_id_cases request w) as Hc.
  destruct Hh as [Habs|(pre & k & post & Hh & Hpre & Hk)].
  - by rewrite (headers_get_scope_absent _ Habs) in Hc.
  - by rewrite Hh, (headers_get_scope _ _ _ _ Hpre Hk) in Hc.
Qed.














(** X15. The entropy source is read only to generate an id: a request
    that supplies a non-empty [x-request-id] leaves it untouched, any other
    request draws from it exactly once; no handler reads it. This holds
    whether the middleware answers the request or raises. *)
Theorem entropy_drawn_only_when_generating request w :
  entropy (app request w).2 = entropy w
  ∧ entropy_reads (app request w).2
    = match headers_get "x-request-id" (scope_headers (Request.headers request)) with
      | Some v => if String.eqb v "" then S (entropy_reads w) else entropy_reads w
      | None => S (entropy_reads w)
      end.
Proof. by destruct (app_state request w) as (_ & _ & _ & He & Her). Qed.

Lemma str_int_inj a b : str_int a = str_int b → a = b.
Proof.
  assert (∀ z, NilZero.int_of_string (str_int z) = Some (Z.to_int z)) as Hparse.
  { intros z. unfold str_int. apply NilZero.isi; destruct z; try discriminate;
      simpl; intros E; injection E; apply DecimalPos.Unsigned.to_uint_nonnil. }
  intros E. apply (f_equal NilZero.int_of_string) in E.
  rewrite !Hparse in E. injection E as E.
  rewrite <- (DecimalZ.of_to a), <- (DecimalZ.of_to b). by rewrite E.
Qed.

(** X16. Two answered requests share a counter and a histogram child
    exactly when they have the same method, the same [request.url.path]
    and the same status code: the decimal text of the status keeps
    different codes apart. *)
Theorem label_sets_distinguish method1 path1 code1 method2 path2 code2 :
  labels_of method1 path1 code1 = labels_of method2 path2 code2
  ↔ method1 = method2 ∧ path1 = path2 ∧ code1 = code2.
Proof.
  unfold labels_of. split.
  - intros E. injection E as Hm Hp Hc. by apply str_int_inj in Hc.
  - by intros (-> & -> & ->).
Qed.

End Coverage.

(** ** The added properties at work *)

Lemma health_always_ok_witness :
  ∃ rid w0 w',
    _request_id (make_request "GET" "/health" [] NoBody) fresh_world = (Ok rid, w0)
    ∧ app (make_request "GET" "/health" [] NoBody) fresh_world
      = (Ok (set_header "x-request-id" rid
               (JSONResponse (JObj [("status", JStr "ok"); ("request_id", JStr rid)])
                  200)), w').
Proof.
  exact (proj2 (health_always_ok (make_request "GET" "/health" [] NoBody) fresh_world
                  eq_refl eq_refl) "/health" eq_refl).
Defined.

Lemma root_always_ok_witness :
  ∃ rid w0 w',
    _request_id (make_request "GET" "/" [] NoBody) fresh_world = (Ok rid, w0)
    ∧ app (make_request "GET" "/" [] NoBody) fresh_world
      = (Ok (set_header "x-request-id" rid
               (JSONResponse (JObj [("message", JStr "DevOps demo API");
                                    ("request_id", JStr rid)]) 200)), w').
Proof.
  exact (proj2 (root_always_ok (make_request "GET" "/" [] NoBody) fresh_world
                  eq_refl eq_refl) "/" eq_refl).
Defined.

Lemma metrics_snapshot_witness :
  ∃ rid w',
    app (make_request "GET" "/metrics" [] NoBody) fresh_world
    = (Ok (set_header "x-request-id" rid
             {| status_code := 200;
                headers := [("content-type", CONTENT_TYPE_LATEST)];
                content := MetricsText ∅ ∅ |}), w')
    ∧ counter_value (REQUEST_COUNT w') ("GET", "/metrics", "200") = 0 + 1
    ∧ store w' = store fresh_world.
Proof.
  exact (metrics_snapshot (make_request "GET" "/metrics" [] NoBody) fresh_world
           "/metrics" eq_refl eq_refl eq_refl).
Defined.



Lemma handlers_need_request_id_witness :
  health (make_request "GET" "/health" [] NoBody) fresh_world
  = (Raise (AttributeError "request_id"), fresh_world).
Proof.
  exact (proj1 (handlers_need_request_id
                  (make_request "GET" "/health" [] NoBody)
                  {| ItemIn.name := "widget" |} fresh_world eq_refl)).
Defined.

Lemma first_header_decides_witness :
  _request_id
    (make_request "GET" "/" [("X-Request-Id", ""); ("x-request-id", "abc")] NoBody)
    fresh_world
  = (Ok (uuid4_hex (entropy fresh_world (entropy_reads fresh_world))),
     set_entropy_reads (S (entropy_reads fresh_world)) fresh_world).
Proof.
  apply first_header_decides. right.
  exists [], "X-Request-Id", [("x-request-id", "abc")].
  split; [reflexivity|]. split; [constructor | reflexivity].
Defined.



(** A request whose Host header no URL can be built from, between two
    that are answered: it is neither counted nor logged, and the item it
    posted is in the store. *)
Example bad_host_between_two :
  total_count
    (REQUEST_COUNT
       (serve_all [make_request "GET" "/health" [] NoBody;
                   make_request_bad_host "POST" "/items" []
                     (Json (JObj [("name", JStr "widget")]));
                   make_request "GET" "/items" [] NoBody] fresh_world))
  = 2
  ∧ length
      (log_output
         (serve_all [make_request "GET" "/health" [] NoBody;
                     make_request_bad_host "POST" "/items" []
                       (Json (JObj [("name", JStr "widget")]));
                     make_request "GET" "/items" [] NoBody] fresh_world))
    = 2%nat
  ∧ InMemoryStore._items
      (store
         (serve_all [make_request "GET" "/health" [] NoBody;
                     make_request_bad_host "POST" "/items" []
                       (Json (JObj [("name", JStr "widget")]));
                     make_request "GET" "/items" [] NoBody] fresh_world))
    = [{| ItemOut.name := "widget"; ItemOut.id := 1 |}].
Proof. repeat split; vm_compute; reflexivity. Qed.
